(** * ButtonDrop: a draggable button that falls, bounces and tumbles

    Shallow embedding of [src/components/ButtonDrop.vue] (the [<script setup>]
    block) and the properties of its physics and interaction handlers.

    Number model.  Every JavaScript [number] of the component is modelled as
    an exact rational ([Q], compared with [==]).  The arithmetic of the
    component ([+ - * /], comparisons, [Math.min], [Math.abs], [Math.round]
    and the remainder operator [%]) is modelled exactly on rationals;
    binary64 rounding, [NaN] and the infinities are outside the model.

    Host model.  [window.innerWidth], [window.innerHeight], [window.scrollY]
    and [performance.now()] are read from a [Window] value supplied with each
    handler invocation.  [requestAnimationFrame] / [cancelAnimationFrame] are
    modelled by a queue of pending callback handles: a request appends a
    fresh handle, a cancel removes the given handle (and nothing else), and
    a frame runs the oldest pending callback after removing it. *)

From Stdlib Require Import QArith Qabs Qminmax Qround ZArith List Bool Lia Lqa Arith.
Import ListNotations.
Open Scope Q_scope.

(** ** JavaScript number operations *)

Module Num.

(** [x < y] *)
Definition ltb (x y : Q) : bool := negb (Qle_bool y x).
(** [x > y] *)
Definition gtb (x y : Q) : bool := ltb y x.
(** [x >= y] *)
Definition geb (x y : Q) : bool := Qle_bool y x.

(** Integer part, rounding toward zero. *)
Definition trunc (x : Q) : Z := Z.quot (Qnum x) (Zpos (Qden x)).

(** The remainder operator [x % m]: the result has the sign of the
    dividend [x] and a magnitude below that of [m]. *)
Definition rem (x m : Q) : Q := x - m * inject_Z (trunc (x / m)).

(** [Math.round]: nearest integer, halves toward plus infinity. *)
Definition round (x : Q) : Q := inject_Z (Qfloor (x + (1 # 2))).

(** [Math.abs] and [Math.min]. *)
Definition abs (x : Q) : Q := Qabs x.
Definition min (x y : Q) : Q := Qmin x y.

End Num.

(** ** Component state: the [ref]s of the script *)

Record State : Type := mkState {
  isDragging : bool;
  posX : Q;
  posY : Q;
  startX : Q;
  startY : Q;
  velocityX : Q;
  velocityY : Q;
  rotation : Q;
  angularVelocity : Q;
  hasDropped : bool;
  lastTime : Q;
  animationId : nat
}.

Definition set_isDragging (v : bool) (s : State) : State :=
  mkState v (posX s) (posY s) (startX s) (startY s) (velocityX s) (velocityY s)
          (rotation s) (angularVelocity s) (hasDropped s) (lastTime s) (animationId s).
Definition set_posX (v : Q) (s : State) : State :=
  mkState (isDragging s) v (posY s) (startX s) (startY s) (velocityX s) (velocityY s)
          (rotation s) (angularVelocity s) (hasDropped s) (lastTime s) (animationId s).
Definition set_posY (v : Q) (s : State) : State :=
  mkState (isDragging s) (posX s) v (startX s) (startY s) (velocityX s) (velocityY s)
          (rotation s) (angularVelocity s) (hasDropped s) (lastTime s) (animationId s).
Definition set_startX (v : Q) (s : State) : State :=
  mkState (isDragging s) (posX s) (posY s) v (startY s) (velocityX s) (velocityY s)
          (rotation s) (angularVelocity s) (hasDropped s) (lastTime s) (animationId s).
Definition set_startY (v : Q) (s : State) : State :=
  mkState (isDragging s) (posX s) (posY s) (startX s) v (velocityX s) (velocityY s)
          (rotation s) (angularVelocity s) (hasDropped s) (lastTime s) (animationId s).
Definition set_velocityX (v : Q) (s : State) : State :=
  mkState (isDragging s) (posX s) (posY s) (startX s) (startY s) v (velocityY s)
          (rotation s) (angularVelocity s) (hasDropped s) (lastTime s) (animationId s).
Definition set_velocityY (v : Q) (s : State) : State :=
  mkState (isDragging s) (posX s) (posY s) (startX s) (startY s) (velocityX s) v
          (rotation s) (angularVelocity s) (hasDropped s) (lastTime s) (animationId s).
Definition set_rotation (v : Q) (s : State) : State :=
  mkState (isDragging s) (posX s) (posY s) (startX s) (startY s) (velocityX s) (velocityY s)
          v (angularVelocity s) (hasDropped s) (lastTime s) (animationId s).
Definition set_angularVelocity (v : Q) (s : State) : State :=
  mkState (isDragging s) (posX s) (posY s) (startX s) (startY s) (velocityX s) (velocityY s)
          (rotation s) v (hasDropped s) (lastTime s) (animationId s).
Definition set_hasDropped (v : bool) (s : State) : State :=
  mkState (isDragging s) (posX s) (posY s) (startX s) (startY s) (velocityX s) (velocityY s)
          (rotation s) (angularVelocity s) v (lastTime s) (animationId s).
Definition set_lastTime (v : Q) (s : State) : State :=
  mkState (isDragging s) (posX s) (posY s) (startX s) (startY s) (velocityX s) (velocityY s)
          (rotation s) (angularVelocity s) (hasDropped s) v (animationId s).
Definition set_animationId (v : nat) (s : State) : State :=
  mkState (isDragging s) (posX s) (posY s) (startX s) (startY s) (velocityX s) (velocityY s)
          (rotation s) (angularVelocity s) (hasDropped s) (lastTime s) v.

(** The initial values of the refs. *)
Definition initState : State :=
  mkState false 0 0 0 0 0 0 0 0 false 0 0%nat.

(** ** Physical parameters *)

Definition friction : Q := 98 # 100.
Definition bounce : Q := 7 # 10.
Definition gravity : Q := 5 # 10.
Definition buttonWidth : Q := 120.
Definition buttonHeight : Q := 56.
Definition rotationFriction : Q := 96 # 100.
Definition rotationMultiplier : Q := 2 # 10.

(** ** The host: window readings, pointer events, animation frames *)

Record Window : Type := mkWindow {
  innerWidth : Q;
  innerHeight : Q;
  scrollY : Q;
  now : Q          (* the value [performance.now()] returns *)
}.

Record Touch : Type := mkTouch { touchX : Q; touchY : Q }.

Inductive PointerEvent : Type :=
| MouseEvent (clientX clientY : Q)
| TouchEvent (touches : list Touch).

(** [e instanceof MouseEvent ? e.clientX : e.touches[0].clientX], and the
    same for Y.  Reading [clientX] of a missing first touch throws, which is
    [None] here. *)
Definition clientXY (e : PointerEvent) : option (Q * Q) :=
  match e with
  | MouseEvent x y => Some (x, y)
  | TouchEvent (t :: _) => Some (touchX t, touchY t)
  | TouchEvent [] => None
  end.

(** The page: the component's refs and the host's pending frame callbacks
    (every callback the component registers is [animate]). *)
Record Page : Type := mkPage {
  comp : State;
  frames : list nat;     (* handles of pending callbacks, oldest first *)
  nextHandle : nat       (* the handle the next request returns *)
}.

Definition with_comp (f : State -> State) (p : Page) : Page :=
  mkPage (f (comp p)) (frames p) (nextHandle p).

(** [cancelAnimationFrame(h)] *)
Definition cancelAnimationFrame (h : nat) (p : Page) : Page :=
  mkPage (comp p) (filter (fun k => negb (Nat.eqb k h)) (frames p)) (nextHandle p).

(** [animationId.value = requestAnimationFrame(animate)] *)
Definition requestAnimationFrame (p : Page) : Page :=
  mkPage (set_animationId (nextHandle p) (comp p))
         (frames p ++ [nextHandle p]) (S (nextHandle p)).

(** ** The handlers *)

Definition handleScroll (w : Window) (s : State) : State :=
  if negb (hasDropped s) && Num.gtb (scrollY w) 50 then
    set_posY (innerHeight w - buttonHeight - 20) (set_hasDropped true s)
  else s.

Definition startDrag (e : PointerEvent) (p : Page) : Page :=
  let p := cancelAnimationFrame (animationId (comp p)) p in
  let p := with_comp (fun s =>
             set_angularVelocity 0 (set_velocityY 0 (set_velocityX 0
               (set_isDragging true s)))) p in
  match clientXY e with
  | None => p  (* the handler throws here; the writes above stay *)
  | Some (clientX, clientY) =>
      with_comp (fun s =>
        set_startY (clientY - posY s) (set_startX (clientX - posX s) s)) p
  end.

Definition onDrag (w : Window) (e : PointerEvent) (s : State) : State :=
  if negb (isDragging s) then s else
  match clientXY e with
  | None => s  (* the handler throws before any write *)
  | Some (clientX, clientY) =>
      let deltaTime := now w - lastTime s in
      let s :=
        if Num.gtb deltaTime 0 then
          let newVelocityX := ((clientX - startX s - posX s) / deltaTime) * 1000 in
          let newVelocityY := ((clientY - startY s - posY s) / deltaTime) * 1000 in
          let s := set_angularVelocity
                     ((newVelocityX - velocityX s) * rotationMultiplier) s in
          let s := set_velocityX newVelocityX s in
          set_velocityY newVelocityY s
        else s in
      let s := set_lastTime (now w) s in
      let s := set_posX (clientX - startX s) s in
      set_posY (clientY - startY s) s
  end.

(** The X-axis [if / else if] of [checkBoundaries]. *)
Definition checkX (windowWidth : Q) (sh : State * bool) : State * bool :=
  let (s, hitBoundary) := sh in
  if Num.ltb (posX s) 0 then
    let s := set_posX 0 s in
    let s := set_velocityX (- velocityX s * bounce) s in
    let s := set_angularVelocity (- velocityY s * rotationMultiplier) s in
    (s, true)
  else if Num.gtb (posX s) (windowWidth - buttonWidth) then
    let s := set_posX (windowWidth - buttonWidth) s in
    let s := set_velocityX (- velocityX s * bounce) s in
    let s := set_angularVelocity (velocityY s * rotationMultiplier) s in
    (s, true)
  else (s, hitBoundary).

(** The Y-axis [if / else if] of [checkBoundaries]. *)
Definition checkY (windowHeight : Q) (sh : State * bool) : State * bool :=
  let (s, hitBoundary) := sh in
  if Num.ltb (posY s) 0 then
    let s := set_posY 0 s in
    let s := set_velocityY (- velocityY s * bounce) s in
    let s := set_angularVelocity (velocityX s * rotationMultiplier) s in
    (s, true)
  else if Num.gtb (posY s) (windowHeight - buttonHeight) then
    let s := set_posY (windowHeight - buttonHeight) s in
    let s := set_velocityY (- velocityY s * bounce) s in
    let s := set_angularVelocity (- velocityX s * rotationMultiplier * 2) s in
    let s := set_velocityX (velocityX s * (friction * (9 # 10))) s in
    (s, true)
  else (s, hitBoundary).

Definition checkBoundaries (w : Window) (s : State) : State * bool :=
  let windowWidth := innerWidth w in
  let windowHeight := innerHeight w in
  checkY windowHeight (checkX windowWidth (s, false)).

(** Lines 119-138 of [animate]: time step, gravity, friction, position,
    boundaries, rotation.  Returns the state and [hitBoundary]. *)
Definition integrate (w : Window) (s : State) : State * bool :=
  let deltaTime := Num.min (now w - lastTime s) 50 in
  let s := set_lastTime (now w) s in
  let s := set_velocityY (velocityY s + gravity) s in
  let s := set_velocityX (velocityX s * friction) s in
  let s := set_velocityY (velocityY s * friction) s in
  let s := set_posX (posX s + (velocityX s * deltaTime) / 1000) s in
  let s := set_posY (posY s + (velocityY s * deltaTime) / 1000) s in
  let (s, hitBoundary) := checkBoundaries w s in
  let s := set_angularVelocity (angularVelocity s * rotationFriction) s in
  let s := set_rotation (rotation s + (angularVelocity s * deltaTime) / 1000) s in
  let s := set_rotation (Num.rem (rotation s) 360) s in
  (s, hitBoundary).

(** The test of lines 141-146. *)
Definition atRest (w : Window) (s : State) : bool :=
  Num.ltb (Num.abs (velocityX s)) (1 # 100) &&
  Num.ltb (Num.abs (velocityY s)) (5 # 100) &&
  Num.ltb (Num.abs (angularVelocity s)) (1 # 100) &&
  Num.geb (posY s) (innerHeight w - buttonHeight).

Definition animate (w : Window) (p : Page) : Page :=
  if isDragging (comp p) then p else
  let (s, hitBoundary) := integrate w (comp p) in
  if atRest w s then
    let s := set_velocityX 0 s in
    let s := set_velocityY 0 s in
    let s := set_angularVelocity 0 s in
    let s := if negb hitBoundary
             then set_rotation (Num.round (rotation s / 90) * 90) s
             else s in
    mkPage s (frames p) (nextHandle p)
  else
    requestAnimationFrame (mkPage s (frames p) (nextHandle p)).

Definition stopDrag (w : Window) (p : Page) : Page :=
  let p := with_comp (fun s => set_lastTime (now w) (set_isDragging false s)) p in
  animate w p.

(** [onMounted]: the start position (the listener registrations are the
    [Event]s below). *)
Definition onMounted (w : Window) (s : State) : State :=
  set_posY 20 (set_posX (innerWidth w / 2 - buttonWidth / 2) s).

(** [onUnmounted]: cancels the recorded callback (and removes the
    listeners, which ends the event system below). *)
Definition onUnmounted (p : Page) : Page :=
  cancelAnimationFrame (animationId (comp p)) p.

(** ** The page as an event system

    The events a mounted component reacts to, each with the window readings
    at the time it is handled. *)

Inductive Event : Type :=
| Scroll                          (* window scroll *)
| Press (e : PointerEvent)        (* mousedown / touchstart on the button *)
| Move (e : PointerEvent)         (* document mousemove / touchmove *)
| Release                         (* document mouseup / touchend *)
| Resize                          (* window resize *)
| Frame.                          (* the host runs the oldest pending callback *)

Definition step (w : Window) (ev : Event) (p : Page) : Page :=
  match ev with
  | Scroll => with_comp (handleScroll w) p
  | Press e => startDrag e p
  | Move e => with_comp (onDrag w e) p
  | Release => stopDrag w p
  | Resize => with_comp (fun s => fst (checkBoundaries w s)) p
  | Frame =>
      match frames p with
      | [] => p
      | _ :: rest => animate w (mkPage (comp p) rest (nextHandle p))
      end
  end.

Fixpoint run (tr : list (Window * Event)) (p : Page) : Page :=
  match tr with
  | [] => p
  | (w, ev) :: tr' => run tr' (step w ev p)
  end.

(** The page right after mounting in window [w]: no callback is pending and
    handles start at 1 (0, the initial [animationId], is never issued). *)
Definition mounted (w : Window) : Page :=
  mkPage (onMounted w initState) [] 1%nat.

(** ** Event sequences *)



(** Every [Release] of the sequence arrives while a drag is in progress. *)
Fixpoint guardedReleases (tr : list (Window * Event)) (p : Page) : bool :=
  match tr with
  | [] => true
  | (w, ev) :: tr' =>
      match ev with
      | Release => isDragging (comp p)
      | _ => true
      end && guardedReleases tr' (step w ev p)
  end.


(** ** Concrete windows and states used in the examples below *)

Module Scenario.

(** A 1000 x 800 viewport, clock at 16 ms. *)
Definition win : Window := mkWindow 1000 800 0 16.

(** A viewport only 40 px high, lower than the button. *)
Definition lowWin : Window := mkWindow 1000 40 0 16.

(** Past the right wall and below the floor at once, moving right and down. *)
Definition corner : State :=
  mkState false 1000 900 0 0 500 100 0 0 false 0 0%nat.

(** Past the right wall only. *)
Definition rightOnly : State :=
  mkState false 1000 300 0 0 500 100 0 0 false 0 0%nat.

(** Below the floor only. *)
Definition floorOnly : State :=
  mkState false 300 900 0 0 500 100 0 0 false 0 0%nat.

(** Above the top edge of [lowWin], which is also below its "floor" line
    [40 - 56 = -16]. *)
Definition aboveLow : State :=
  mkState false 100 (-5) 0 0 10 (-100) 0 0 false 0 0%nat.

(** In free flight about to cross the right wall and the floor. *)
Definition flying : State :=
  mkState false 879 743 0 0 500 100 0 0 false 0 0%nat.

(** In free flight, well inside the viewport. *)
Definition falling : State :=
  mkState false 100 100 0 0 30 0 10 40 false 0 0%nat.

(** The resting state of the specification's scenario: on the floor of
    [win] with [vx = 0.005], [vy = 0.02], [angularVelocity = 0.005],
    rotated by 83 degrees. *)
Definition resting : State :=
  mkState false 440 744 0 0 (5 # 1000) (2 # 100) 83 (5 # 1000) false 0 0%nat.

(** The same with [vy = -0.5], which one gravity increment brings to 0. *)
Definition cancelled : State :=
  mkState false 440 744 0 0 (5 # 1000) (- (1 # 2)) 83 (5 # 1000) false 0 0%nat.

(** As [cancelled], rotated by 350 degrees. *)
Definition nearFullTurn : State :=
  mkState false 440 744 0 0 (5 # 1000) (- (1 # 2)) 350 (5 # 1000) false 0 0%nat.

(** In free flight, spinning counter-clockwise from rotation 0. *)
Definition spinning : State :=
  mkState false 100 100 0 0 0 0 0 (-100) false 0 0%nat.

(** A drag in progress: grabbed 10 px inside the button, last sample at
    100 ms. *)
Definition dragged : State :=
  mkState true 440 20 10 10 0 0 0 0 false 100 0%nat.

(** The clock 16 ms after that sample, and at that very sample. *)
Definition dragWin : Window := mkWindow 1000 800 0 116.
Definition staleWin : Window := mkWindow 1000 800 0 100.

(** The page scrolled by 60 px. *)
Definition scrolledWin : Window := mkWindow 1000 800 60 16.

(** Two releases with no drag in progress (two clicks anywhere in the
    document), then a press on the button. *)
Definition clicksThenGrab : list (Window * Event) :=
  [(win, Release); (win, Release); (win, Press (MouseEvent 450 30))].

(** A press, three moves and the release that ends the drag, with two
    frames afterwards. *)
Definition throw : list (Window * Event) :=
  [ (staleWin, Press (MouseEvent 450 30));
    (dragWin, Move (MouseEvent 458 34));
    (mkWindow 1000 800 0 132, Move (MouseEvent 470 40));
    (mkWindow 1000 800 0 148, Release);
    (mkWindow 1000 800 0 164, Frame);
    (mkWindow 1000 800 0 180, Frame) ].

(** Lying on the floor of [win] with no motion at all, one callback
    pending. *)
Definition lying : Page :=
  mkPage (mkState false 440 744 0 0 0 0 0 0 true 0 1%nat) [1%nat] 2%nat.


(** Scroll, clicks and frames, with no press on the button. *)
Definition noGrab : list (Window * Event) :=
  [ (scrolledWin, Scroll); (win, Release);
    (mkWindow 1000 800 60 32, Frame); (mkWindow 1000 800 60 48, Resize);
    (mkWindow 1000 800 60 64, Move (MouseEvent 5 5));
    (mkWindow 1000 800 60 80, Frame) ].

End Scenario.

(** * Properties *)

(** ** Comparisons, remainder and rounding *)

Module NumFacts.

Lemma ltb_spec x y : BoolSpec (x < y) (y <= x) (Num.ltb x y).
Proof.
  unfold Num.ltb. destruct (Qle_bool y x) eqn:E; constructor.
  - now apply Qle_bool_iff.
  - apply Qnot_le_lt. intro H. apply Qle_bool_iff in H. congruence.
Qed.

Lemma gtb_spec x y : BoolSpec (y < x) (x <= y) (Num.gtb x y).
Proof. apply ltb_spec. Qed.

Lemma geb_spec x y : BoolSpec (y <= x) (x < y) (Num.geb x y).
Proof.
  unfold Num.geb. destruct (Qle_bool y x) eqn:E; constructor.
  - now apply Qle_bool_iff.
  - apply Qnot_le_lt. intro H. apply Qle_bool_iff in H. congruence.
Qed.

Lemma trunc_spec q :
  (0 <= q -> inject_Z (Num.trunc q) <= q < inject_Z (Num.trunc q) + 1) /\
  (q <= 0 -> inject_Z (Num.trunc q) - 1 < q <= inject_Z (Num.trunc q)).
Proof.
  destruct q as [n d]. unfold Num.trunc. cbn [Qnum Qden].
  pose proof (Z.quot_rem' n (Zpos d)) as E.
  split; intro H.
  - assert (Hn : (0 <= n)%Z) by (unfold Qle in H; simpl in H; lia).
    pose proof (Z.rem_bound_pos n (Zpos d) Hn ltac:(lia)) as B.
    unfold Qle, Qlt, Qplus, inject_Z; simpl. nia.
  - assert (Hn : (n <= 0)%Z) by (unfold Qle in H; simpl in H; lia).
    pose proof (Z.rem_nonpos n (Zpos d) ltac:(lia) Hn) as B.
    pose proof (Z.rem_bound_abs n (Zpos d) ltac:(lia)) as B'.
    unfold Qle, Qlt, Qminus, Qplus, Qopp, inject_Z; simpl. nia.
Qed.

Lemma rem_bound x m : 0 < m -> - m < Num.rem x m < m.
Proof.
  intro Hm. unfold Num.rem.
  set (q := x / m). assert (Hx : x == q * m) by (unfold q; field; intro E; rewrite E in Hm; discriminate).
  clearbody q. destruct (trunc_spec q) as [P N].
  set (t := inject_Z (Num.trunc q)) in *. clearbody t.
  destruct (Qlt_le_dec q 0) as [L|L].
  - assert (L' : q <= 0) by lra. specialize (N L'). split; nra.
  - specialize (P L). split; nra.
Qed.

Lemma rem_sign x m : 0 < m ->
  (0 <= x -> 0 <= Num.rem x m) /\ (x <= 0 -> Num.rem x m <= 0).
Proof.
  intro Hm. unfold Num.rem.
  set (q := x / m). assert (Hx : x == q * m) by (unfold q; field; intro E; rewrite E in Hm; discriminate).
  clearbody q. destruct (trunc_spec q) as [P N].
  set (t := inject_Z (Num.trunc q)) in *. clearbody t.
  split; intro H.
  - assert (0 <= q) by nra. specialize (P H0). nra.
  - assert (q <= 0) by nra. specialize (N H0). nra.
Qed.

Lemma round_near x : x - (1#2) < Num.round x <= x + (1#2).
Proof.
  unfold Num.round.
  pose proof (Qfloor_le (x + (1#2))). pose proof (Qlt_floor (x + (1#2))).
  rewrite inject_Z_plus in H0. change (inject_Z 1) with 1 in H0. lra.
Qed.

Lemma snap_range r : -360 < r < 360 -> -360 <= Num.round (r / 90) * 90 <= 360.
Proof.
  intros [L U]. pose proof (round_near (r / 90)) as [A B].
  unfold Num.round in *. set (k := Qfloor (r / 90 + (1#2))) in *. clearbody k.
  assert (E : r / 90 == r * (1 # 90)) by reflexivity.
  assert (Hk : (-4 <= k <= 4)%Z).
  { assert (-(9#2) < inject_Z k) by lra. assert (inject_Z k <= 9#2) by lra.
    unfold Qlt, Qle, inject_Z in *; simpl in *; lia. }
  destruct Hk as [K1 K2].
  rewrite Zle_Qle in K1, K2.
  change (inject_Z (-4)) with (-4) in K1. change (inject_Z 4) with 4 in K2.
  set (c := inject_Z k) in *. clearbody c. lra.
Qed.

End NumFacts.

Import NumFacts.

(** Case analysis on every comparison of the goal. *)
Ltac cmp :=
  repeat (cbn in *;
          match goal with
          | |- context [Num.gtb ?a ?b] => destruct (gtb_spec a b)
          | |- context [Num.ltb ?a ?b] => destruct (ltb_spec a b)
          | |- context [Num.geb ?a ?b] => destruct (geb_spec a b)
          end);
  cbn in *.

(** Closed numeric facts, decided by evaluation. *)
Ltac qcompute :=
  vm_compute; first [ reflexivity | discriminate | intro; discriminate ].

Ltac unfold_params :=
  unfold friction, bounce, gravity, buttonWidth, buttonHeight,
         rotationFriction, rotationMultiplier in *.

(** ** The boundary check *)

Section Boundaries.

Variable w : Window.
Let W := innerWidth w.
Let H := innerHeight w.

(** [checkBoundaries] never touches anything but position, velocities
    and angular velocity. *)
Lemma checkBoundaries_frame (s : State) :
  let s' := fst (checkBoundaries w s) in
  isDragging s' = isDragging s /\ hasDropped s' = hasDropped s /\
  rotation s' = rotation s /\ lastTime s' = lastTime s /\
  animationId s' = animationId s /\ startX s' = startX s /\ startY s' = startY s.
Proof.
  unfold checkBoundaries, checkX, checkY.
  cmp; cbn; repeat split; reflexivity.
Qed.

(** In a viewport larger than the button the check leaves the body inside. *)
Lemma checkBoundaries_in_viewport (s : State) :
  buttonWidth < W -> buttonHeight < H ->
  let s' := fst (checkBoundaries w s) in
  0 <= posX s' <= W - buttonWidth /\ 0 <= posY s' <= H - buttonHeight.
Proof.
  unfold W, H, checkBoundaries, checkX, checkY. intros HW HH.
  cmp; cbn in *; repeat split; lra.
Qed.

End Boundaries.

(** ** One simulation tick *)

(** [integrate] hands the position over from the boundary check unchanged. *)
Lemma integrate_in_viewport (w : Window) (s : State) :
  buttonWidth < innerWidth w -> buttonHeight < innerHeight w ->
  let s' := fst (integrate w s) in
  0 <= posX s' <= innerWidth w - buttonWidth /\
  0 <= posY s' <= innerHeight w - buttonHeight.
Proof.
  intros HW HH. unfold integrate.
  match goal with |- context [checkBoundaries w ?m] =>
    pose proof (checkBoundaries_in_viewport w m HW HH) as B;
    destruct (checkBoundaries w m) as [b hit] end.
  cbn in *. exact B.
Qed.

(** What [animate] does with the outcome of [integrate] when not dragging:
    positions survive both the settling branch and the rescheduling one. *)
Lemma animate_position (w : Window) (p : Page) :
  isDragging (comp p) = false ->
  posX (comp (animate w p)) = posX (fst (integrate w (comp p))) /\
  posY (comp (animate w p)) = posY (fst (integrate w (comp p))).
Proof.
  intro D. unfold animate. rewrite D.
  destruct (integrate w (comp p)) as [s hit].
  destruct (atRest w s); [destruct hit|]; cbn; split; reflexivity.
Qed.

(** C1. In every viewport wider and taller than the button, after a
    simulation tick (an [animate] call that gets past the dragging guard and
    so runs the boundary check) the position satisfies
    [0 <= posX <= W - buttonWidth] and [0 <= posY <= H - buttonHeight],
    whatever the state before the tick was. *)
Theorem tick_keeps_body_in_viewport (w : Window) (p : Page) :
  isDragging (comp p) = false ->
  buttonWidth < innerWidth w -> buttonHeight < innerHeight w ->
  0 <= posX (comp (animate w p)) <= innerWidth w - buttonWidth /\
  0 <= posY (comp (animate w p)) <= innerHeight w - buttonHeight.
Proof.
  intros D HW HH.
  destruct (animate_position w p D) as [-> ->].
  exact (integrate_in_viewport w (comp p) HW HH).
Qed.

Lemma tick_keeps_body_in_viewport_witness :
  0 <= posX (comp (animate Scenario.win (mkPage Scenario.flying [] 1%nat)))
    <= innerWidth Scenario.win - buttonWidth /\
  0 <= posY (comp (animate Scenario.win (mkPage Scenario.flying [] 1%nat)))
    <= innerHeight Scenario.win - buttonHeight.
Proof.
  apply (tick_keeps_body_in_viewport Scenario.win (mkPage Scenario.flying [] 1%nat));
    reflexivity.
Defined.

(** ** Wall and floor responses *)

(** C5, as the code has it.  For every state with
    [posX > viewportWidth - buttonWidth] that is not left of the viewport
    ([0 <= posX], the left-wall branch comes first) and whose Y coordinate
    is inside [[0, viewportHeight - buttonHeight]] (so that no Y-edge branch
    rewrites the result in the same call), the boundary check sets
    [posX = viewportWidth - buttonWidth], [vx = -vx*bounce] ([-350] for an
    incoming [500]), [angularVelocity = vy*rotationMultiplier], and reports
    a hit; the Y coordinate and [vy] are left alone. *)
Theorem right_wall_resolution (w : Window) (s : State) :
  0 <= posX s -> innerWidth w - buttonWidth < posX s ->
  0 <= posY s <= innerHeight w - buttonHeight ->
  let s' := fst (checkBoundaries w s) in
  posX s' == innerWidth w - buttonWidth /\
  velocityX s' == - velocityX s * bounce /\
  (velocityX s == 500 -> velocityX s' == -350) /\
  angularVelocity s' == velocityY s * rotationMultiplier /\
  snd (checkBoundaries w s) = true /\
  posY s' = posY s /\ velocityY s' = velocityY s.
Proof.
  intros X0 XW [Y0 YH]. unfold checkBoundaries, checkX, checkY.
  cmp; try lra.
  repeat apply conj; try reflexivity.
  intro E. rewrite E. reflexivity.
Qed.

Lemma right_wall_resolution_witness :
  let w := Scenario.win in
  let s := Scenario.rightOnly in
  let s' := fst (checkBoundaries w s) in
  posX s' == 880 /\ velocityX s' == -350 /\ angularVelocity s' == 20 /\
  snd (checkBoundaries w s) = true /\ posY s' = 300 /\ velocityY s' = 100.
Proof.
  pose proof (right_wall_resolution Scenario.win Scenario.rightOnly
                ltac:(qcompute) ltac:(qcompute) ltac:(split; qcompute))
    as (P & _ & V & A & Hit & Y & VY).
  repeat apply conj;
    [ exact P | apply V; reflexivity
    | apply (Qeq_trans _ _ _ A); reflexivity | exact Hit | exact Y | exact VY ].
Defined.

(** C5 as stated fails at a corner: the state is right of the wall, yet
    after the boundary check [vx] is not [-vx*bounce] (the floor branch
    damps it further, [-308.7] instead of [-350]) and [angularVelocity] is
    not [vy*rotationMultiplier] (the floor branch overwrites it, [140]
    instead of [20]). *)
Lemma right_wall_corner_counterexample :
  let w := Scenario.win in
  let s := Scenario.corner in
  let s' := fst (checkBoundaries w s) in
  innerWidth w - buttonWidth < posX s /\
  velocityX s' == -(3087 # 10) /\ ~ velocityX s' == - velocityX s * bounce /\
  angularVelocity s' == 140 /\
  ~ angularVelocity s' == velocityY s * rotationMultiplier.
Proof.
  cbv zeta. repeat apply conj; qcompute.
Qed.

(** The left-wall branch is tested first: a state left of the viewport that
    also satisfies [posX > viewportWidth - buttonWidth] (a viewport narrower
    than the button) is resolved against the left wall. *)
Lemma left_wall_takes_precedence (w : Window) (s : State) :
  posX s < 0 ->
  posX (fst (checkBoundaries w s)) == 0 /\
  velocityX (fst (checkX (innerWidth w) (s, false))) == - velocityX s * bounce.
Proof.
  intro X. unfold checkBoundaries, checkX, checkY.
  cmp; cbn; try lra; split; reflexivity.
Qed.

(** C6, as the code has it.  For every state with
    [posY > viewportHeight - buttonHeight] and [posY >= 0] (the ceiling
    branch is tested first and wins when [posY < 0]) the boundary check
    clamps [posY] to [viewportHeight - buttonHeight], sets [vy = -vy*bounce],
    sets [angularVelocity = -vx*rotationMultiplier*2] and multiplies [vx] by
    [friction*0.9], where [vx] is the value the X-axis check has left (the
    incoming one when no side wall fired).  On each axis the two branches
    exclude each other: a state above the ceiling gets the ceiling response
    only (one reflection of [vy], no floor friction on [vx]), and a state
    left of the viewport gets the left-wall response only (one reflection of
    [vx]), also when it is beyond the opposite edge at the same time. *)
Theorem floor_resolution (w : Window) (s : State) :
  let sx := fst (checkX (innerWidth w) (s, false)) in
  let s' := fst (checkBoundaries w s) in
  (0 <= posY s -> innerHeight w - buttonHeight < posY s ->
     posY s' == innerHeight w - buttonHeight /\
     velocityY s' == - velocityY s * bounce /\
     angularVelocity s' == - velocityX sx * rotationMultiplier * 2 /\
     velocityX s' == velocityX sx * (friction * (9 # 10)) /\
     snd (checkBoundaries w s) = true /\
     (0 <= posX s <= innerWidth w - buttonWidth -> velocityX sx = velocityX s)) /\
  (posY s < 0 ->
     posY s' == 0 /\ velocityY s' == - velocityY s * bounce /\
     angularVelocity s' == velocityX sx * rotationMultiplier /\
     velocityX s' = velocityX sx) /\
  (posX s < 0 ->
     posX s' == 0 /\ velocityX sx == - velocityX s * bounce /\
     angularVelocity sx == - velocityY s * rotationMultiplier).
Proof.
  unfold checkBoundaries, checkX, checkY.
  repeat apply conj; intros; cmp; try lra; repeat apply conj;
    try reflexivity; intros; lra.
Qed.

Lemma floor_resolution_witness :
  let w := Scenario.win in
  let s := Scenario.floorOnly in
  let s' := fst (checkBoundaries w s) in
  posY s' == 744 /\ velocityY s' == -70 /\ angularVelocity s' == -200 /\
  velocityX s' == 441 /\ snd (checkBoundaries w s) = true.
Proof.
  destruct (floor_resolution Scenario.win Scenario.floorOnly) as (F & _ & _).
  destruct (F ltac:(qcompute) ltac:(qcompute)) as (P & V & A & X & Hit & _).
  repeat apply conj;
    [ exact P | apply (Qeq_trans _ _ _ V); reflexivity
    | apply (Qeq_trans _ _ _ A); reflexivity
    | apply (Qeq_trans _ _ _ X); reflexivity | exact Hit ].
Defined.

(** C6 as stated fails in a viewport lower than the button: the state has
    [posY > viewportHeight - buttonHeight] ([-5 > -16]) but it is the
    ceiling branch that runs, so [posY] becomes [0] rather than
    [viewportHeight - buttonHeight], the spin is [vx*rotationMultiplier]
    rather than [-vx*rotationMultiplier*2], and [vx] is not damped. *)
Lemma floor_shadowed_by_ceiling_counterexample :
  let w := Scenario.lowWin in
  let s := Scenario.aboveLow in
  let s' := fst (checkBoundaries w s) in
  innerHeight w - buttonHeight < posY s /\
  posY s' == 0 /\ ~ posY s' == innerHeight w - buttonHeight /\
  angularVelocity s' == 2 /\
  ~ angularVelocity s' == - velocityX s * rotationMultiplier * 2 /\
  velocityX s' == 10 /\ ~ velocityX s' == velocityX s * (friction * (9 # 10)).
Proof.
  cbv zeta. repeat apply conj; qcompute.
Qed.

(** C10.  When an X-edge branch and a Y-edge branch fire in the same call,
    the final angular velocity is the Y branch's assignment alone: it is
    computed from the (already reflected) horizontal velocity and the Y edge
    that was hit, and nothing of the X branch's assignment ([-vy*k] or
    [vy*k]) nor of the earlier angular velocity remains.  Both linear
    reflections are kept: [vy = -vy*bounce], and [vx = -vx*bounce], further
    damped by [friction*0.9] when the Y edge is the floor. *)
Theorem corner_hit_spin_from_y_only (w : Window) (s : State) :
  posX s < 0 \/ innerWidth w - buttonWidth < posX s ->
  posY s < 0 \/ innerHeight w - buttonHeight < posY s ->
  let s' := fst (checkBoundaries w s) in
  let vx1 := - velocityX s * bounce in
  snd (checkBoundaries w s) = true /\
  velocityY s' == - velocityY s * bounce /\
  (posY s < 0 ->
     angularVelocity s' == vx1 * rotationMultiplier /\ velocityX s' == vx1) /\
  (0 <= posY s ->
     angularVelocity s' == - vx1 * rotationMultiplier * 2 /\
     velocityX s' == vx1 * (friction * (9 # 10))).
Proof.
  intros HX HY. unfold checkBoundaries, checkX, checkY.
  cmp; try lra; repeat apply conj; try reflexivity; intros;
    try lra; repeat apply conj; try reflexivity; destruct HX; destruct HY; lra.
Qed.

Lemma corner_hit_spin_from_y_only_witness :
  let w := Scenario.win in
  let s := Scenario.corner in
  let s' := fst (checkBoundaries w s) in
  snd (checkBoundaries w s) = true /\ velocityY s' == -70 /\
  angularVelocity s' == 140 /\ velocityX s' == -(3087 # 10).
Proof.
  destruct (corner_hit_spin_from_y_only Scenario.win Scenario.corner
              ltac:(right; qcompute) ltac:(right; qcompute))
    as (Hit & V & _ & F).
  destruct (F ltac:(qcompute)) as (A & X).
  repeat apply conj;
    [ exact Hit | apply (Qeq_trans _ _ _ V); reflexivity
    | apply (Qeq_trans _ _ _ A); reflexivity
    | apply (Qeq_trans _ _ _ X); reflexivity ].
Defined.

(** ** The integrator *)

(** Inside the viewport the boundary check changes nothing and reports no hit. *)
Lemma checkBoundaries_noop (w : Window) (s : State) :
  0 <= posX s <= innerWidth w - buttonWidth ->
  0 <= posY s <= innerHeight w - buttonHeight ->
  checkBoundaries w s = (s, false).
Proof.
  intros [X0 XW] [Y0 YH]. unfold checkBoundaries, checkX, checkY.
  cmp; try lra; reflexivity.
Qed.

(** [integrate] in closed form: the boundary check runs on the state moved
    with the new velocities, the rotation update uses the angular velocity
    the boundary check returns. *)
Lemma integrate_closed_form (w : Window) (s : State) :
  let dt := Num.min (now w - lastTime s) 50 in
  let vy1 := (velocityY s + gravity) * friction in
  let vx1 := velocityX s * friction in
  let moved :=
    mkState (isDragging s) (posX s + (vx1 * dt) / 1000) (posY s + (vy1 * dt) / 1000)
            (startX s) (startY s) vx1 vy1 (rotation s) (angularVelocity s)
            (hasDropped s) (now w) (animationId s) in
  let b := fst (checkBoundaries w moved) in
  let hit := snd (checkBoundaries w moved) in
  let av1 := angularVelocity b * rotationFriction in
  let rot := Num.rem (rotation s + (av1 * dt) / 1000) 360 in
  integrate w s = (set_rotation rot (set_angularVelocity av1 b), hit) /\
  (0 <= posX moved <= innerWidth w - buttonWidth ->
   0 <= posY moved <= innerHeight w - buttonHeight ->
   b = moved /\ hit = false).
Proof.
  intros dt vy1 vx1 moved b hit av1 rot. split.
  - unfold integrate. fold dt.
    change (set_posY _ _) with moved.
    pose proof (checkBoundaries_frame w moved) as (_ & _ & R & _).
    unfold rot, av1, b, hit. cbv zeta in R.
    destruct (checkBoundaries w moved) as [b' h']. cbn [fst snd] in *.
    unfold set_rotation, set_angularVelocity; cbn. rewrite R. reflexivity.
  - intros HX HY. unfold b, hit.
    rewrite (checkBoundaries_noop w moved HX HY). split; reflexivity.
Qed.

(** C7.  A tick (an [animate] call that is not dragging) uses
    [dt = min(now - lastTime, 50)], so [dt <= 50], and updates in this
    order: [vy += gravity] (per tick, not scaled by [dt]); then [vx] and
    [vy] are multiplied by [friction]; then the position advances by
    [velocity*dt/1000] with the velocities just obtained; then the boundary
    check runs on the advanced position; then the angular velocity coming
    out of the boundary check is multiplied by [rotationFriction] and the
    rotation advances by that damped value times [dt/1000], reduced with
    [% 360].  Unless the tick settles, these are the values [animate]
    leaves behind; with no edge crossed the boundary check is the identity. *)
Theorem tick_order (w : Window) (p : Page) :
  isDragging (comp p) = false ->
  let s := comp p in
  let dt := Num.min (now w - lastTime s) 50 in
  let vy1 := (velocityY s + gravity) * friction in
  let vx1 := velocityX s * friction in
  let moved :=
    mkState (isDragging s) (posX s + (vx1 * dt) / 1000) (posY s + (vy1 * dt) / 1000)
            (startX s) (startY s) vx1 vy1 (rotation s) (angularVelocity s)
            (hasDropped s) (now w) (animationId s) in
  let b := fst (checkBoundaries w moved) in
  let hit := snd (checkBoundaries w moved) in
  let av1 := angularVelocity b * rotationFriction in
  let rot := Num.rem (rotation s + (av1 * dt) / 1000) 360 in
  dt <= 50 /\
  (now w - lastTime s <= 50 -> dt == now w - lastTime s) /\
  integrate w s = (set_rotation rot (set_angularVelocity av1 b), hit) /\
  (0 <= posX moved <= innerWidth w - buttonWidth ->
   0 <= posY moved <= innerHeight w - buttonHeight ->
   b = moved /\ hit = false) /\
  (atRest w (fst (integrate w s)) = false ->
   comp (animate w p) =
     set_animationId (nextHandle p) (set_rotation rot (set_angularVelocity av1 b)) /\
   frames (animate w p) = frames p ++ [nextHandle p]).
Proof.
  intros D s dt vy1 vx1 moved b hit av1 rot.
  destruct (integrate_closed_form w s) as [I Free].
  cbv zeta in I, Free. fold dt vy1 vx1 moved b hit av1 rot in I, Free.
  split; [|split; [|split; [|split]]].
  - apply Q.le_min_r.
  - intro L. apply Q.min_l. exact L.
  - exact I.
  - exact Free.
  - intro R. rewrite I in R. cbn [fst] in R.
    unfold animate. fold s. fold s in D. rewrite D, I, R. split; reflexivity.
Qed.

Lemma tick_order_witness :
  let p := mkPage Scenario.falling [] 1%nat in
  Num.min (now Scenario.win - lastTime Scenario.falling) 50 <= 50 /\
  frames (animate Scenario.win p) = [1%nat] /\
  comp (animate Scenario.win p) =
    set_animationId 1%nat (fst (integrate Scenario.win Scenario.falling)).
Proof.
  pose proof (tick_order Scenario.win (mkPage Scenario.falling [] 1%nat) eq_refl)
    as (A & _ & I & _ & E).
  destruct (E ltac:(vm_compute; reflexivity)) as (C & F).
  repeat apply conj; [ exact A | exact F | ].
  apply (eq_trans C). apply f_equal. apply (f_equal fst) in I. symmetry. exact I.
Defined.

(** ** Settling *)

Lemma abs_ltb_true (x c : Q) : - c < x -> x < c -> Num.ltb (Num.abs x) c = true.
Proof.
  intros L U. destruct (ltb_spec (Num.abs x) c) as [|G]; [reflexivity|].
  exfalso. revert G. unfold Num.abs. apply Qlt_not_le.
  apply Qabs_Qlt_condition. split; assumption.
Qed.

Lemma abs_ltb_inv (x c : Q) : Num.ltb (Num.abs x) c = true -> - c < x < c.
Proof.
  destruct (ltb_spec (Num.abs x) c) as [L|]; [|discriminate].
  intros _. apply Qabs_Qlt_condition. exact L.
Qed.

(** The four conjuncts of the settlement test. *)
Lemma atRest_inv (w : Window) (s : State) :
  atRest w s = true ->
  - (1 # 100) < velocityX s < 1 # 100 /\ - (5 # 100) < velocityY s < 5 # 100 /\
  - (1 # 100) < angularVelocity s < 1 # 100 /\
  innerHeight w - buttonHeight <= posY s.
Proof.
  unfold atRest. intro R.
  apply andb_prop in R as [R R4]. apply andb_prop in R as [R R3].
  apply andb_prop in R as [R1 R2].
  split; [|split; [|split]].
  - apply (abs_ltb_inv _ _ R1).
  - apply (abs_ltb_inv _ _ R2).
  - apply (abs_ltb_inv _ _ R3).
  - destruct (geb_spec (posY s) (innerHeight w - buttonHeight)); [assumption|discriminate].
Qed.

(** What [animate] does once the settlement test has passed. *)
Lemma animate_settles (w : Window) (p : Page) :
  isDragging (comp p) = false ->
  atRest w (fst (integrate w (comp p))) = true ->
  let s5 := fst (integrate w (comp p)) in
  let p' := animate w p in
  velocityX (comp p') = 0 /\ velocityY (comp p') = 0 /\
  angularVelocity (comp p') = 0 /\
  frames p' = frames p /\ nextHandle p' = nextHandle p /\
  animationId (comp p') = animationId s5 /\
  rotation (comp p') =
    (if snd (integrate w (comp p)) then rotation s5
     else Num.round (rotation s5 / 90) * 90).
Proof.
  intros D R. unfold animate. rewrite D.
  destruct (integrate w (comp p)) as [s5 hit]. cbn [fst snd] in *. rewrite R.
  destruct hit; cbn; repeat apply conj; reflexivity.
Qed.

(** What [animate] does when the settlement test fails. *)
Lemma animate_reschedules (w : Window) (p : Page) :
  isDragging (comp p) = false ->
  atRest w (fst (integrate w (comp p))) = false ->
  animate w p =
    requestAnimationFrame
      (mkPage (fst (integrate w (comp p))) (frames p) (nextHandle p)).
Proof.
  intros D R. unfold animate. rewrite D.
  destruct (integrate w (comp p)) as [s5 hit]. cbn [fst] in *. rewrite R. reflexivity.
Qed.

(** C2, as the code has it.  The settlement test reads the velocities the
    tick has just computed, after the gravity increment, so the scenario
    settles when that increment cancels [vy]: from [vx = 0.005],
    [vy = -0.5], [angularVelocity = 0.005], [posY = H - buttonHeight] (in a
    viewport at least as high as the button, with the horizontal move
    staying between the side walls, so that no boundary is hit) the next
    tick zeroes the three velocities, snaps the rotation to the nearest
    multiple of 90 and schedules no further tick. *)
Theorem settles_when_gravity_cancelled (w : Window) (p : Page) :
  let s := comp p in
  let dt := Num.min (now w - lastTime s) 50 in
  isDragging s = false ->
  velocityX s == 5 # 1000 -> velocityY s == - (1 # 2) ->
  angularVelocity s == 5 # 1000 ->
  posY s == innerHeight w - buttonHeight ->
  buttonHeight <= innerHeight w ->
  0 <= posX s + (velocityX s * friction * dt) / 1000 <= innerWidth w - buttonWidth ->
  let p' := animate w p in
  let r := rotation (fst (integrate w s)) in
  velocityX (comp p') == 0 /\ velocityY (comp p') == 0 /\
  angularVelocity (comp p') == 0 /\
  rotation (comp p') = Num.round (r / 90) * 90 /\
  Qabs (rotation (comp p') - r) <= 45 /\
  frames p' = frames p /\ nextHandle p' = nextHandle p /\
  animationId (comp p') = animationId s.
Proof.
  intros s dt D VX VY AV PY HH HX p' r.
  destruct (integrate_closed_form w s) as [I Free].
  cbv zeta in I, Free. fold dt in I, Free.
  assert (E0 : (velocityY s + gravity) * friction == 0)
    by (rewrite VY; reflexivity).
  assert (E1 : (velocityY s + gravity) * friction * dt / 1000 == 0)
    by (rewrite E0; unfold Qdiv; ring).
  destruct Free as [B Hit].
  { cbn. exact HX. }
  { cbn. rewrite E1. unfold_params. split; lra. }
  rewrite B, Hit in I. clear B Hit.
  assert (R : atRest w (fst (integrate w s)) = true).
  { rewrite I. unfold atRest. cbn.
    rewrite (abs_ltb_true (velocityX s * friction)), (abs_ltb_true ((velocityY s + gravity) * friction)),
      (abs_ltb_true (angularVelocity s * rotationFriction));
      try (unfold_params; lra).
    cbn. destruct (geb_spec (posY s + (velocityY s + gravity) * friction * dt / 1000)
                     (innerHeight w - buttonHeight)) as [|L]; [reflexivity|].
    rewrite E1 in L. lra. }
  destruct (animate_settles w p D R) as (X & Y & A & F & N & Id & Rot).
  fold p' in X, Y, A, F, N, Id, Rot. fold s in Id, Rot. fold r in Rot.
  assert (Rot' : rotation (comp p') = Num.round (r / 90) * 90).
  { rewrite Rot, I. reflexivity. }
  repeat apply conj; try assumption.
  - rewrite X. reflexivity.
  - rewrite Y. reflexivity.
  - rewrite A. reflexivity.
  - rewrite Rot'. pose proof (round_near (r / 90)) as [Lo Hi].
    assert (E : r / 90 == r * (1 # 90)) by reflexivity.
    apply Qabs_Qle_condition.
    set (k := Num.round (r / 90)) in *. clearbody k. lra.
  - rewrite Id, I. reflexivity.
Qed.

Lemma settles_when_gravity_cancelled_witness :
  let p := mkPage Scenario.cancelled [] 1%nat in
  let p' := animate Scenario.win p in
  velocityX (comp p') == 0 /\ velocityY (comp p') == 0 /\
  angularVelocity (comp p') == 0 /\ rotation (comp p') == 90 /\
  frames p' = [] /\ nextHandle p' = 1%nat.
Proof.
  pose proof (settles_when_gravity_cancelled Scenario.win
                (mkPage Scenario.cancelled [] 1%nat)
                eq_refl ltac:(qcompute) ltac:(qcompute) ltac:(qcompute)
                ltac:(qcompute) ltac:(qcompute) ltac:(split; qcompute))
    as (X & Y & A & R & _ & F & N & _).
  repeat apply conj; [ exact X | exact Y | exact A | | exact F | exact N ].
  rewrite R. vm_compute. reflexivity.
Defined.

(** C2 as stated fails: from [vx = 0.005], [vy = 0.02],
    [angularVelocity = 0.005] on the floor the tick adds gravity, lands on
    the floor again and bounces, leaving [vy = -0.35672]; the test
    [|vy| < 0.05] fails, the velocities are not zeroed, the rotation is not
    snapped (the floor was hit, and the rotation stays strictly between 0
    and 90) and the next tick is scheduled. *)
Lemma resting_scenario_counterexample :
  let w := Scenario.win in
  let p := mkPage Scenario.resting [] 1%nat in
  let p' := animate w p in
  isDragging (comp p) = false /\
  posY (comp p) == innerHeight w - buttonHeight /\
  velocityY (comp p') == - (35672 # 100000) /\ ~ velocityY (comp p') == 0 /\
  ~ velocityX (comp p') == 0 /\
  snd (integrate w (comp p)) = true /\
  90 * 0 < rotation (comp p') < 90 * 1 /\
  frames p' = [1%nat].
Proof.
  cbv zeta. repeat apply conj; qcompute.
Qed.

(** The failure above does not depend on the window or on the clock: with
    [vy = 0.02] before the tick, the vertical speed after the gravity
    increment is [0.5096], or [0.35672] after a reflection, never below
    the [0.05] threshold, so the tick always schedules the next one. *)
Lemma resting_scenario_never_settles (w : Window) (p : Page) :
  isDragging (comp p) = false ->
  velocityY (comp p) == 2 # 100 ->
  frames (animate w p) = frames p ++ [nextHandle p].
Proof.
  intros D VY.
  assert (R : atRest w (fst (integrate w (comp p))) = false).
  { destruct (atRest w (fst (integrate w (comp p)))) eqn:R; [exfalso|reflexivity].
    apply atRest_inv in R. destruct R as (_ & V & _). revert V.
    unfold integrate, checkBoundaries, checkX, checkY.
    cmp; unfold_params; lra. }
  rewrite (animate_reschedules w p D R). reflexivity.
Qed.

(** ** Rotation *)

Lemma integrate_rotation_range (w : Window) (s : State) :
  - 360 < rotation (fst (integrate w s)) < 360.
Proof.
  unfold integrate.
  match goal with |- context [checkBoundaries w ?m] =>
    destruct (checkBoundaries w m) as [b hit] end.
  cbn. exact (rem_bound _ 360 eq_refl).
Qed.

Lemma tick_rotation_range (w : Window) (p : Page) :
  isDragging (comp p) = false ->
  - 360 <= rotation (comp (animate w p)) <= 360.
Proof.
  intro D. pose proof (integrate_rotation_range w (comp p)) as R.
  unfold animate. rewrite D.
  destruct (integrate w (comp p)) as [s hit]. cbn [fst] in R.
  destruct (atRest w s); [destruct hit|]; cbn.
  - lra.
  - apply snap_range. exact R.
  - lra.
Qed.

Lemma animate_rotation_range (w : Window) (p : Page) :
  - 360 <= rotation (comp p) <= 360 ->
  - 360 <= rotation (comp (animate w p)) <= 360.
Proof.
  intro Inv. destruct (isDragging (comp p)) eqn:D.
  - unfold animate. rewrite D. exact Inv.
  - apply tick_rotation_range. exact D.
Qed.

Lemma step_rotation_range (w : Window) (ev : Event) (p : Page) :
  - 360 <= rotation (comp p) <= 360 ->
  - 360 <= rotation (comp (step w ev p)) <= 360.
Proof.
  intro Inv. destruct ev as [ | e | e | | | ]; cbn [step].
  - unfold handleScroll. cbn.
    destruct (negb (hasDropped (comp p)) && Num.gtb (scrollY w) 50); exact Inv.
  - unfold startDrag. destruct (clientXY e) as [[cx cy]|]; exact Inv.
  - unfold onDrag. cbn. destruct (isDragging (comp p)); [|exact Inv]. cbn.
    destruct (clientXY e) as [[cx cy]|]; [|exact Inv].
    destruct (Num.gtb (now w - lastTime (comp p)) 0); exact Inv.
  - apply animate_rotation_range. exact Inv.
  - cbn. destruct (checkBoundaries_frame w (comp p)) as (_ & _ & R & _).
    rewrite R. exact Inv.
  - destruct (frames p); [exact Inv|]. apply animate_rotation_range. exact Inv.
Qed.

(** C3, as the code has it.  The normalization [rotation % 360] of a tick
    leaves the rotation strictly between -360 and 360 (the remainder keeps
    the sign of the angle, so negative values occur); after the whole tick
    that a release starts, settlement snap included, it is in [[-360, 360]]
    (the snap can give 360 or -360); and so it is in every state reached
    from mounting, whatever the events. *)
Theorem rotation_within_one_turn :
  (forall w s, - 360 < rotation (fst (integrate w s)) < 360) /\
  (forall w p, - 360 <= rotation (comp (stopDrag w p)) <= 360) /\
  (forall w0 tr, - 360 <= rotation (comp (run tr (mounted w0))) <= 360).
Proof.
  split; [exact integrate_rotation_range|split].
  - intros w p. apply tick_rotation_range. reflexivity.
  - intros w0 tr.
    assert (G : forall q, - 360 <= rotation (comp q) <= 360 ->
                          - 360 <= rotation (comp (run tr q)) <= 360).
    { induction tr as [|[w ev] tr IH]; intros q Inv; cbn [run].
      - exact Inv.
      - apply IH. apply step_rotation_range. exact Inv. }
    apply G. cbn. lra.
Qed.

(** C3 as stated fails on both sides: a body spinning counter-clockwise
    from rotation 0 has a negative rotation after the tick, and a body that
    settles at 350 degrees is snapped to 360. *)
Lemma rotation_range_counterexample :
  let p1 := mkPage Scenario.spinning [] 1%nat in
  let p2 := mkPage Scenario.nearFullTurn [] 1%nat in
  rotation (comp (animate Scenario.win p1)) == - (192 # 125) /\
  rotation (comp (animate Scenario.win p1)) < 0 /\
  rotation (comp (animate Scenario.win p2)) == 360 /\
  frames (animate Scenario.win p2) = [].
Proof.
  cbv zeta. repeat apply conj; qcompute.
Qed.

(** ** Dragging *)

(** C8.  While dragging, a move sample at time [now] with
    [dt = now - lastTime]: when [dt <= 0] the two velocities and the
    angular velocity are left as they were; when [dt > 0],
    [vx = (dx/dt)*1000], [vy = (dy/dt)*1000] where [dx], [dy] is the
    displacement from the previous position to the new one, and
    [angularVelocity = (vx_new - vx_old)*rotationMultiplier].  In both
    cases the sample time is recorded and the body follows the pointer. *)
Theorem drag_velocity_estimate
    (w : Window) (e : PointerEvent) (s : State) (cx cy : Q) :
  isDragging s = true -> clientXY e = Some (cx, cy) ->
  let dt := now w - lastTime s in
  let s' := onDrag w e s in
  posX s' = cx - startX s /\ posY s' = cy - startY s /\ lastTime s' = now w /\
  (dt <= 0 ->
     velocityX s' = velocityX s /\ velocityY s' = velocityY s /\
     angularVelocity s' = angularVelocity s) /\
  (0 < dt ->
     velocityX s' == ((posX s' - posX s) / dt) * 1000 /\
     velocityY s' == ((posY s' - posY s) / dt) * 1000 /\
     angularVelocity s' == (velocityX s' - velocityX s) * rotationMultiplier).
Proof.
  intros D E. unfold onDrag. rewrite D, E. cbn [negb].
  cmp; repeat apply conj; try reflexivity; intro; try lra;
    repeat apply conj; reflexivity.
Qed.

Lemma drag_velocity_estimate_witness :
  let e := MouseEvent 458 34 in
  let s := Scenario.dragged in
  (velocityX (onDrag Scenario.dragWin e s) == 500 /\
   velocityY (onDrag Scenario.dragWin e s) == 250 /\
   angularVelocity (onDrag Scenario.dragWin e s) == 100) /\
  (velocityX (onDrag Scenario.staleWin e s) = velocityX s /\
   velocityY (onDrag Scenario.staleWin e s) = velocityY s /\
   angularVelocity (onDrag Scenario.staleWin e s) = angularVelocity s).
Proof.
  split.
  - destruct (drag_velocity_estimate Scenario.dragWin (MouseEvent 458 34)
                Scenario.dragged 458 34 eq_refl eq_refl) as (_ & _ & _ & _ & P).
    destruct (P ltac:(qcompute)) as (X & Y & A).
    repeat apply conj;
      [ apply (Qeq_trans _ _ _ X) | apply (Qeq_trans _ _ _ Y)
      | apply (Qeq_trans _ _ _ A) ]; vm_compute; reflexivity.
  - destruct (drag_velocity_estimate Scenario.staleWin (MouseEvent 458 34)
                Scenario.dragged 458 34 eq_refl eq_refl) as (_ & _ & _ & N & _).
    exact (N ltac:(qcompute)).
Defined.

(** ** The drop latch *)

Lemma integrate_hasDropped (w : Window) (s : State) :
  hasDropped (fst (integrate w s)) = hasDropped s.
Proof.
  unfold integrate.
  match goal with |- context [checkBoundaries w ?m] =>
    pose proof (checkBoundaries_frame w m) as (_ & F & _);
    destruct (checkBoundaries w m) as [b hit] end.
  cbn in *. exact F.
Qed.

Lemma animate_hasDropped (w : Window) (p : Page) :
  hasDropped (comp (animate w p)) = hasDropped (comp p).
Proof.
  unfold animate. destruct (isDragging (comp p)); [reflexivity|].
  pose proof (integrate_hasDropped w (comp p)) as F.
  destruct (integrate w (comp p)) as [s hit]. cbn [fst] in F.
  destruct (atRest w s); [destruct hit|]; cbn; exact F.
Qed.

Lemma step_hasDropped (w : Window) (ev : Event) (p : Page) :
  hasDropped (comp p) = true -> hasDropped (comp (step w ev p)) = true.
Proof.
  intro L. destruct ev as [ | e | e | | | ]; cbn [step].
  - unfold handleScroll. cbn. rewrite L. exact L.
  - unfold startDrag. destruct (clientXY e) as [[cx cy]|]; exact L.
  - unfold onDrag. cbn. destruct (isDragging (comp p)); [|exact L]. cbn.
    destruct (clientXY e) as [[cx cy]|]; [|exact L].
    destruct (Num.gtb (now w - lastTime (comp p)) 0); exact L.
  - unfold stopDrag. rewrite animate_hasDropped. exact L.
  - cbn. destruct (checkBoundaries_frame w (comp p)) as (_ & F & _).
    rewrite F. exact L.
  - destruct (frames p); [exact L|]. rewrite animate_hasDropped. exact L.
Qed.

(** C4.  [hasDropped] is a one-way latch.  A scroll event with
    [scrollY > 50] while [hasDropped] is false sets [hasDropped] and
    [posY = viewportHeight - buttonHeight - 20] and nothing else (a scroll
    event at or below the threshold changes nothing); once [hasDropped] is
    true a scroll event leaves the whole page as it is; and no event
    sequence brings [hasDropped] back to false. *)
Theorem hasDropped_latch :
  (forall w s, hasDropped s = false -> 50 < scrollY w ->
     handleScroll w s =
       set_posY (innerHeight w - buttonHeight - 20) (set_hasDropped true s) /\
     hasDropped (handleScroll w s) = true /\
     posY (handleScroll w s) = innerHeight w - buttonHeight - 20) /\
  (forall w s, scrollY w <= 50 -> handleScroll w s = s) /\
  (forall w p, hasDropped (comp p) = true -> step w Scroll p = p) /\
  (forall tr p, hasDropped (comp p) = true ->
     hasDropped (comp (run tr p)) = true).
Proof.
  split; [|split; [|split]].
  - intros w s L T. unfold handleScroll. rewrite L.
    destruct (gtb_spec (scrollY w) 50); [|lra]. cbn. repeat split.
  - intros w s T. unfold handleScroll.
    destruct (gtb_spec (scrollY w) 50); [lra|]. rewrite andb_false_r. reflexivity.
  - intros w p L. destruct p as [s fr nh]. cbn in *.
    unfold with_comp, handleScroll. cbn. rewrite L. reflexivity.
  - induction tr as [|[w ev] tr IH]; intros p L; cbn [run].
    + exact L.
    + apply IH. apply step_hasDropped. exact L.
Qed.

Lemma hasDropped_latch_witness :
  let p0 := mounted Scenario.scrolledWin in
  let p1 := step Scenario.scrolledWin Scroll p0 in
  hasDropped (comp p0) = false /\
  hasDropped (comp p1) = true /\ posY (comp p1) == 724 /\
  step Scenario.scrolledWin Scroll p1 = p1 /\
  hasDropped (comp (run Scenario.clicksThenGrab p1)) = true.
Proof.
  destruct hasDropped_latch as (First & _ & Later & Never).
  destruct (First Scenario.scrolledWin (comp (mounted Scenario.scrolledWin))
              eq_refl ltac:(qcompute)) as (_ & L & P).
  repeat apply conj.
  - reflexivity.
  - exact L.
  - cbn [step with_comp comp]. rewrite P. reflexivity.
  - apply Later. exact L.
  - apply Never. exact L.
Defined.

(** ** The animation loop and dragging *)

(** An [animate] call made while dragging returns at once: nothing changes
    and nothing is scheduled. *)
Lemma animate_while_dragging (w : Window) (p : Page) :
  isDragging (comp p) = true -> animate w p = p.
Proof.
  intro D. unfold animate. rewrite D. reflexivity.
Qed.

(** A drag start cancels the callback recorded in [animationId], whatever
    the event carries. *)
Lemma startDrag_cancels_recorded (e : PointerEvent) (p : Page) :
  ~ In (animationId (comp p)) (frames (startDrag e p)) /\
  isDragging (comp (startDrag e p)) = true.
Proof.
  unfold startDrag. destruct (clientXY e) as [[cx cy]|]; cbn; split;
    try reflexivity; rewrite filter_In; intros [_ C];
    rewrite Nat.eqb_refl in C; discriminate.
Qed.

(** Any other pending callback is left pending by a drag start. *)
Lemma startDrag_keeps_other_callbacks (e : PointerEvent) (p : Page) (h : nat) :
  In h (frames p) -> h <> animationId (comp p) -> In h (frames (startDrag e p)).
Proof.
  intros I N. unfold startDrag. destruct (clientXY e) as [[cx cy]|]; cbn;
    rewrite filter_In; (split; [exact I|]);
    apply negb_true_iff, Nat.eqb_neq; exact N.
Qed.

(** With a single loop running, its callback being the recorded one, a drag
    start leaves nothing pending. *)
Lemma startDrag_stops_single_loop (e : PointerEvent) (p : Page) :
  frames p = [animationId (comp p)] -> frames (startDrag e p) = [].
Proof.
  intro F. unfold startDrag. destruct (clientXY e) as [[cx cy]|]; cbn;
    rewrite F; cbn; rewrite Nat.eqb_refl; reflexivity.
Qed.

(** C9, the failing run.  [stopDrag] is bound to every [mouseup] /
    [touchend] of the document and calls [animate] without a guard and
    without cancelling the pending callback, so two releases with no drag
    in progress start two loops, of which [animationId] records the second
    only.  The press that follows cancels that one: the button is being
    dragged while callback 1 is still pending.  If the button is released
    before the next frame, callback 1 and the new callback 3 are both
    pending, and two loops go on mutating the same body. *)
Theorem duplicate_loop_survives_grab :
  let w := Scenario.win in
  let grabbed := run Scenario.clicksThenGrab (mounted w) in
  let released := step w Release grabbed in
  isDragging (comp grabbed) = true /\
  animationId (comp grabbed) = 2%nat /\ frames grabbed = [1%nat] /\
  isDragging (comp released) = false /\ frames released = [1%nat; 3%nat].
Proof.
  cbv zeta. repeat apply conj; vm_compute; reflexivity.
Qed.

(** * Further properties of the handlers *)

(** ** The boundary check as a whole *)

(** With a viewport at least as large as the button, the clamped position is
    inside it. *)
Lemma checkBoundaries_clamps (w : Window) (s : State) :
  buttonWidth <= innerWidth w -> buttonHeight <= innerHeight w ->
  0 <= posX (fst (checkBoundaries w s)) <= innerWidth w - buttonWidth /\
  0 <= posY (fst (checkBoundaries w s)) <= innerHeight w - buttonHeight.
Proof.
  unfold checkBoundaries, checkX, checkY. intros HW HH.
  cmp; repeat split; lra.
Qed.

(** The boundary check reports a hit exactly when the body is not inside
    the viewport; when it reports none, it has changed nothing. *)
Theorem hit_iff_outside (w : Window) (s : State) :
  (snd (checkBoundaries w s) = false <->
   (0 <= posX s <= innerWidth w - buttonWidth /\
    0 <= posY s <= innerHeight w - buttonHeight)) /\
  (snd (checkBoundaries w s) = false -> fst (checkBoundaries w s) = s).
Proof.
  assert (Out : snd (checkBoundaries w s) = false ->
                0 <= posX s <= innerWidth w - buttonWidth /\
                0 <= posY s <= innerHeight w - buttonHeight).
  { unfold checkBoundaries, checkX, checkY.
    cmp; intro E; try discriminate; repeat split; assumption. }
  split; [split|].
  - exact Out.
  - intros [HX HY]. rewrite (checkBoundaries_noop w s HX HY). reflexivity.
  - intro E. destruct (Out E) as [HX HY].
    rewrite (checkBoundaries_noop w s HX HY). reflexivity.
Qed.

(** In a viewport at least as large as the button the boundary check is
    idempotent: run again on its own result (as a resize right after a tick
    does) it changes nothing and reports no hit. *)
Theorem checkBoundaries_idempotent (w : Window) (s : State) :
  buttonWidth <= innerWidth w -> buttonHeight <= innerHeight w ->
  checkBoundaries w (fst (checkBoundaries w s)) = (fst (checkBoundaries w s), false).
Proof.
  intros HW HH. destruct (checkBoundaries_clamps w s HW HH) as [HX HY].
  apply checkBoundaries_noop; assumption.
Qed.

Lemma checkBoundaries_idempotent_witness :
  checkBoundaries Scenario.win (fst (checkBoundaries Scenario.win Scenario.corner))
  = (fst (checkBoundaries Scenario.win Scenario.corner), false).
Proof.
  apply (checkBoundaries_idempotent Scenario.win Scenario.corner); qcompute.
Defined.

(** In a viewport narrower than the button no position is accepted: every
    call reports a hit and reflects the horizontal velocity, so the check
    never comes to rest there. *)
Theorem narrow_viewport_always_hits (w : Window) (s : State) :
  innerWidth w < buttonWidth ->
  snd (checkBoundaries w s) = true /\
  velocityX (fst (checkX (innerWidth w) (s, false))) == - velocityX s * bounce /\
  ~ (0 <= posX (fst (checkBoundaries w s)) <= innerWidth w - buttonWidth).
Proof.
  unfold checkBoundaries, checkX, checkY. intro HW.
  cmp; try lra; repeat apply conj; try reflexivity; intros [A B]; lra.
Qed.

Lemma narrow_viewport_always_hits_witness :
  let w := mkWindow 100 800 0 0 in
  snd (checkBoundaries w Scenario.falling) = true /\
  velocityX (fst (checkX (innerWidth w) (Scenario.falling, false)))
    == - velocityX Scenario.falling * bounce.
Proof.
  destruct (narrow_viewport_always_hits (mkWindow 100 800 0 0) Scenario.falling
              ltac:(qcompute)) as (A & B & _).
  split; [exact A | exact B].
Defined.

(** ** Speed *)

(** [|t| <= |x|] from the two linear bounds, by cases on the sign of [x]. *)
Ltac abs_le x :=
  let L := fresh "L" in
  destruct (Qlt_le_dec x 0) as [L|L];
  [ rewrite (Qabs_neg x) by lra | rewrite (Qabs_pos x) by lra ];
  apply Qabs_Qle_condition; unfold_params; split; lra.

(** The velocities the boundary check can return. *)
Lemma checkBoundaries_velocities (w : Window) (s : State) :
  let s' := fst (checkBoundaries w s) in
  (velocityX s' == velocityX s \/ velocityX s' == - velocityX s * bounce \/
   velocityX s' == velocityX s * (friction * (9 # 10)) \/
   velocityX s' == - velocityX s * bounce * (friction * (9 # 10))) /\
  (velocityY s' == velocityY s \/ velocityY s' == - velocityY s * bounce).
Proof.
  unfold checkBoundaries, checkX, checkY.
  cmp; split;
    solve [ left; reflexivity | right; left; reflexivity
          | right; right; left; reflexivity | right; right; right; reflexivity
          | right; reflexivity ].
Qed.

Lemma checkBoundaries_slows (w : Window) (s : State) :
  Qabs (velocityX (fst (checkBoundaries w s))) <= Qabs (velocityX s) /\
  Qabs (velocityY (fst (checkBoundaries w s))) <= Qabs (velocityY s).
Proof.
  destruct (checkBoundaries_velocities w s) as [VX VY]. cbv zeta in VX, VY.
  split.
  - destruct VX as [E|[E|[E|E]]]; rewrite E;
      solve [ apply Qle_refl | abs_le (velocityX s) ].
  - destruct VY as [E|E]; rewrite E;
      solve [ apply Qle_refl | abs_le (velocityY s) ].
Qed.

(** A reflection loses speed: the boundary check never increases the speed
    on either axis, an axis that hits an edge comes out with exactly
    the vertical speed of a body that hits the ceiling or the floor comes
    out as exactly [bounce] times the incoming one and the vertical
    velocity of a body that hits neither is unchanged, and the horizontal
    speed of a body that hits a side wall comes out as at most [bounce]
    times the incoming one (less when the floor is hit as well). *)
Theorem bounce_reduces_speed (w : Window) (s : State) :
  let s' := fst (checkBoundaries w s) in
  Qabs (velocityX s') <= Qabs (velocityX s) /\
  Qabs (velocityY s') <= Qabs (velocityY s) /\
  (posY s < 0 \/ innerHeight w - buttonHeight < posY s ->
     Qabs (velocityY s') == bounce * Qabs (velocityY s)) /\
  (0 <= posY s <= innerHeight w - buttonHeight -> velocityY s' = velocityY s) /\
  (posX s < 0 \/ innerWidth w - buttonWidth < posX s ->
     Qabs (velocityX s') <= bounce * Qabs (velocityX s)).
Proof.
  cbv zeta. destruct (checkBoundaries_slows w s) as [SX SY].
  split; [exact SX|]. split; [exact SY|]. clear SX SY.
  unfold checkBoundaries, checkX, checkY.
  repeat apply conj.
  - intro HY.
    assert (E : velocityY (fst (checkY (innerHeight w) (checkX (innerWidth w) (s, false))))
                == - velocityY s * bounce)
      by (cmp; try (destruct HY; lra); reflexivity).
    rewrite E.
    assert (E' : - velocityY s * bounce == - bounce * velocityY s) by ring.
    rewrite E', Qabs_Qmult. reflexivity.
  - intros [Y0 YH]. cmp; try lra; reflexivity.
  - intro HX.
    assert (E : velocityX (fst (checkY (innerHeight w) (checkX (innerWidth w) (s, false))))
                == - velocityX s * bounce \/
                velocityX (fst (checkY (innerHeight w) (checkX (innerWidth w) (s, false))))
                == - velocityX s * bounce * (friction * (9 # 10)))
      by (cmp; try (destruct HX; lra);
          solve [left; reflexivity | right; reflexivity]).
    destruct E as [E|E]; rewrite E; abs_le (velocityX s).
Qed.

Lemma bounce_reduces_speed_witness :
  let s' := fst (checkBoundaries Scenario.win Scenario.corner) in
  Qabs (velocityY s') == bounce * Qabs (velocityY Scenario.corner) /\
  Qabs (velocityX s') <= bounce * Qabs (velocityX Scenario.corner).
Proof.
  destruct (bounce_reduces_speed Scenario.win Scenario.corner)
    as (_ & _ & Y & _ & X).
  split; [ apply Y; right; qcompute | apply X; right; qcompute ].
Defined.

(** Every tick damps the horizontal speed by at least the friction factor,
    whatever the boundaries do. *)
Theorem tick_damps_horizontal_speed (w : Window) (p : Page) :
  isDragging (comp p) = false ->
  Qabs (velocityX (comp (animate w p))) <= friction * Qabs (velocityX (comp p)).
Proof.
  intro D. unfold animate. rewrite D.
  destruct (integrate_closed_form w (comp p)) as [I _]. cbv zeta in I. rewrite I.
  match type of I with context [checkBoundaries w ?m] =>
    pose proof (checkBoundaries_slows w m) as [SX _];
    destruct (checkBoundaries w m) as [b hit] end.
  cbn [fst snd velocityX] in *.
  assert (F : Qabs (velocityX (comp p) * friction) == friction * Qabs (velocityX (comp p))).
  { rewrite Qabs_Qmult. rewrite (Qabs_pos friction) by (unfold_params; lra). ring. }
  rewrite F in SX.
  match goal with |- context [atRest w ?x] => destruct (atRest w x) end;
    [destruct hit|]; cbn.
  - pose proof (Qabs_nonneg (velocityX (comp p))). unfold_params. lra.
  - pose proof (Qabs_nonneg (velocityX (comp p))). unfold_params. lra.
  - exact SX.
Qed.

Lemma tick_damps_horizontal_speed_witness :
  Qabs (velocityX (comp (animate Scenario.win (mkPage Scenario.flying [] 1%nat))))
    <= friction * Qabs (velocityX Scenario.flying).
Proof.
  apply (tick_damps_horizontal_speed Scenario.win (mkPage Scenario.flying [] 1%nat)).
  reflexivity.
Defined.

(** ** When the loop stops *)

(** A tick can settle only when the body was rising with a vertical
    velocity within [25/343] (about 0.073) of [-0.5] before the tick, the
    one range the gravity increment brings under the threshold: with any
    other [vy], and so whenever the body is still or moving down, the tick
    schedules the next one. *)
Theorem tick_reschedules_unless_rising (w : Window) (p : Page) :
  isDragging (comp p) = false ->
  velocityY (comp p) <= - (1 # 2) - (25 # 343) \/
  - (1 # 2) + (25 # 343) <= velocityY (comp p) ->
  frames (animate w p) = frames p ++ [nextHandle p] /\
  animationId (comp (animate w p)) = nextHandle p /\
  nextHandle (animate w p) = S (nextHandle p).
Proof.
  intros D HV.
  assert (R : atRest w (fst (integrate w (comp p))) = false).
  { destruct (atRest w (fst (integrate w (comp p)))) eqn:R; [exfalso|reflexivity].
    apply atRest_inv in R. destruct R as (_ & V & _). revert V.
    unfold integrate, checkBoundaries, checkX, checkY.
    cmp; unfold_params; destruct HV; lra. }
  rewrite (animate_reschedules w p D R). repeat split.
Qed.

Lemma tick_reschedules_unless_rising_witness :
  frames (animate Scenario.win (mkPage Scenario.resting [] 1%nat)) = [1%nat] /\
  animationId (comp (animate Scenario.win (mkPage Scenario.resting [] 1%nat))) = 1%nat.
Proof.
  destruct (tick_reschedules_unless_rising Scenario.win
              (mkPage Scenario.resting [] 1%nat) eq_refl ltac:(right; qcompute))
    as (F & A & _).
  split; [exact F | exact A].
Defined.




(** ** Drag state and pending callbacks *)

Lemma animate_isDragging (w : Window) (p : Page) :
  isDragging (comp (animate w p)) = isDragging (comp p).
Proof.
  unfold animate. destruct (isDragging (comp p)) eqn:D; [exact D|].
  destruct (integrate_closed_form w (comp p)) as [I _]. cbv zeta in I. rewrite I.
  match type of I with context [checkBoundaries w ?m] =>
    pose proof (checkBoundaries_frame w m) as (F & _);
    destruct (checkBoundaries w m) as [b hit] end.
  cbn [fst snd] in *. cbn [isDragging] in F.
  match goal with |- context [atRest w ?x] => destruct (atRest w x) end;
    [destruct hit|]; cbn; congruence.
Qed.

(** [isDragging] is written by the press and release handlers only: a press
    sets it, also when the event carries no touch point; a release clears
    it; scroll, move, resize and frame events leave it as it is. *)
Theorem isDragging_between_press_and_release (w : Window) (p : Page) :
  (forall e, isDragging (comp (step w (Press e) p)) = true) /\
  isDragging (comp (step w Release p)) = false /\
  (forall ev, ev <> Release -> (forall e, ev <> Press e) ->
     isDragging (comp (step w ev p)) = isDragging (comp p)).
Proof.
  split; [|split].
  - intro e. cbn [step]. unfold startDrag.
    destruct (clientXY e) as [[cx cy]|]; reflexivity.
  - cbn [step]. unfold stopDrag. rewrite animate_isDragging. reflexivity.
  - intros ev NR NP. destruct ev as [ | e | e | | | ]; cbn [step].
    + unfold handleScroll. cbn.
      destruct (negb (hasDropped (comp p)) && Num.gtb (scrollY w) 50); reflexivity.
    + destruct (NP e). reflexivity.
    + unfold onDrag. cbn. destruct (isDragging (comp p)) eqn:D; [|exact D]. cbn.
      destruct (clientXY e) as [[cx cy]|]; [|exact D].
      destruct (Num.gtb (now w - lastTime (comp p)) 0); exact D.
    + destruct NR. reflexivity.
    + cbn. destruct (checkBoundaries_frame w (comp p)) as (F & _). exact F.
    + destruct (frames p); [reflexivity|]. rewrite animate_isDragging. reflexivity.
Qed.

Lemma animate_frames (w : Window) (p : Page) :
  frames (animate w p) = frames p \/
  (isDragging (comp p) = false /\
   frames (animate w p) = frames p ++ [nextHandle p] /\
   animationId (comp (animate w p)) = nextHandle p).
Proof.
  unfold animate. destruct (isDragging (comp p)); [left; reflexivity|].
  destruct (integrate w (comp p)) as [s hit].
  destruct (atRest w s); [left; reflexivity|right; repeat split].
Qed.

Lemma cancel_length (h : nat) (p : Page) :
  (length (frames (cancelAnimationFrame h p)) <= length (frames p))%nat.
Proof.
  unfold cancelAnimationFrame. cbn. apply filter_length_le.
Qed.

(** Only a release can add a pending callback, and it adds at most one: a
    frame replaces the callback it runs by at most one new callback, a
    press can only remove callbacks, and scroll, move and resize events do
    not touch them. *)
Theorem callbacks_grow_on_release_only (w : Window) (ev : Event) (p : Page) :
  (ev <> Release ->
     (length (frames (step w ev p)) <= length (frames p))%nat) /\
  (length (frames (step w ev p)) <= S (length (frames p)))%nat.
Proof.
  assert (A : forall q, (length (frames (animate w q)) <= S (length (frames q)))%nat).
  { intro q. destruct (animate_frames w q) as [E|(_ & E & _)]; rewrite E.
    - lia.
    - rewrite length_app. cbn. lia. }
  assert (P : forall e, (length (frames (startDrag e p)) <= length (frames p))%nat).
  { intro e. unfold startDrag. pose proof (cancel_length (animationId (comp p)) p).
    destruct (clientXY e) as [[cx cy]|]; cbn in *; lia. }
  assert (F : (length (frames (step w Frame p)) <= length (frames p))%nat).
  { cbn [step]. destruct (frames p) as [|h rest] eqn:E; [rewrite E; cbn; lia|].
    pose proof (A (mkPage (comp p) rest (nextHandle p))) as A'.
    cbn [frames] in A'. cbn [length]. exact A'. }
  destruct ev as [ | e | e | | | ]; split; try intro NR.
  all: try (cbn; lia).
  all: try (specialize (P e); cbn [step]; lia).
  all: try lia.
  - destruct NR. reflexivity.
  - cbn [step]. unfold stopDrag.
    match goal with |- context [animate w ?q] => pose proof (A q) as A' end.
    exact A'.
Qed.

Lemma callbacks_grow_on_release_only_witness :
  (length (frames (step Scenario.win Frame Scenario.lying))
   <= length (frames Scenario.lying))%nat.
Proof.
  apply (callbacks_grow_on_release_only Scenario.win Frame Scenario.lying).
  discriminate.
Defined.

Lemma handleScroll_frame (w : Window) (s : State) :
  isDragging (handleScroll w s) = isDragging s /\
  animationId (handleScroll w s) = animationId s /\
  posX (handleScroll w s) = posX s.
Proof.
  unfold handleScroll.
  destruct (negb (hasDropped s) && Num.gtb (scrollY w) 50); repeat split.
Qed.

Lemma onDrag_frame (w : Window) (e : PointerEvent) (s : State) :
  isDragging (onDrag w e s) = isDragging s /\
  animationId (onDrag w e s) = animationId s /\
  startX (onDrag w e s) = startX s /\ startY (onDrag w e s) = startY s.
Proof.
  unfold onDrag. destruct (isDragging s) eqn:D; cbn; [|repeat split; exact D].
  destruct (clientXY e) as [[cx cy]|]; [|repeat split; exact D].
  destruct (Num.gtb (now w - lastTime s) 0); cbn; repeat split; exact D.
Qed.

(** One step keeps "nothing pending, or not dragging with exactly the
    recorded callback pending", provided a release comes during a drag. *)
Lemma step_single_loop (w : Window) (ev : Event) (p : Page) :
  frames p = [] \/
  (isDragging (comp p) = false /\ frames p = [animationId (comp p)]) ->
  (ev = Release -> isDragging (comp p) = true) ->
  frames (step w ev p) = [] \/
  (isDragging (comp (step w ev p)) = false /\
   frames (step w ev p) = [animationId (comp (step w ev p))]).
Proof.
  intros Inv G.
  assert (A : forall q, frames q = [] -> isDragging (comp q) = false ->
            frames (animate w q) = [] \/
            (isDragging (comp (animate w q)) = false /\
             frames (animate w q) = [animationId (comp (animate w q))])).
  { intros q E D. destruct (animate_frames w q) as [F|(_ & F & Id)].
    - left. rewrite F. exact E.
    - right. rewrite animate_isDragging, F, Id, E. split; [exact D|reflexivity]. }
  destruct ev as [ | e | e | | | ]; cbn [step].
  - destruct (handleScroll_frame w (comp p)) as (D & Id & _).
    unfold with_comp. cbn [frames comp]. rewrite D, Id. exact Inv.
  - left. unfold startDrag.
    assert (E : frames (cancelAnimationFrame (animationId (comp p)) p) = []).
    { unfold cancelAnimationFrame. cbn [frames].
      destruct Inv as [E|[_ E]]; rewrite E; cbn; [|rewrite Nat.eqb_refl]; reflexivity. }
    destruct (clientXY e) as [[cx cy]|]; cbn [frames with_comp]; exact E.
  - destruct (onDrag_frame w e (comp p)) as (D & Id & _).
    unfold with_comp. cbn [frames comp]. rewrite D, Id. exact Inv.
  - specialize (G eq_refl). unfold stopDrag. apply A.
    + cbn. destruct Inv as [E|[D _]]; [exact E|congruence].
    + reflexivity.
  - destruct (checkBoundaries_frame w (comp p)) as (D & _ & _ & _ & Id & _).
    unfold with_comp. cbn [frames comp]. rewrite D, Id. exact Inv.
  - destruct (frames p) as [|h rest] eqn:E; [left; exact E|].
    destruct Inv as [E'|[D E']]; [discriminate|].
    injection E' as _ Er. apply A; [exact Er | exact D].
Qed.

(** When every release arrives during a drag, the component runs at most
    one loop: in every state reached from mounting at most one callback is
    pending, it is the one [animationId] records, and none is pending while
    the button is dragged. *)
Theorem guarded_releases_single_loop (w0 : Window) (tr : list (Window * Event)) :
  guardedReleases tr (mounted w0) = true ->
  let p := run tr (mounted w0) in
  (length (frames p) <= 1)%nat /\
  (frames p = [] \/ frames p = [animationId (comp p)]) /\
  (isDragging (comp p) = true -> frames p = []).
Proof.
  intro G.
  assert (Inv : forall q,
            guardedReleases tr q = true ->
            frames q = [] \/
            (isDragging (comp q) = false /\ frames q = [animationId (comp q)]) ->
            frames (run tr q) = [] \/
            (isDragging (comp (run tr q)) = false /\
             frames (run tr q) = [animationId (comp (run tr q))])).
  { clear G. induction tr as [|[w ev] tr IH]; intros q G I; cbn [run].
    - exact I.
    - cbn [guardedReleases] in G. apply andb_prop in G as [G1 G2].
      apply IH; [exact G2|]. apply step_single_loop; [exact I|].
      intros ->. exact G1. }
  cbv zeta. destruct (Inv (mounted w0) G (or_introl eq_refl)) as [E|[D E]].
  - rewrite E. repeat split; auto.
  - rewrite E. repeat split; auto. intro D'. congruence.
Qed.

Lemma guarded_releases_single_loop_witness :
  let p := run Scenario.throw (mounted Scenario.win) in
  (length (frames p) <= 1)%nat /\
  (frames p = [] \/ frames p = [animationId (comp p)]) /\
  (isDragging (comp p) = true -> frames p = []).
Proof.
  apply (guarded_releases_single_loop Scenario.win Scenario.throw).
  vm_compute. reflexivity.
Defined.

(** ** Dragging moves the body with the pointer *)

Lemma moves_keep_grab (ms : list (Window * PointerEvent)) (p : Page) :
  let p' := run (map (fun m => (fst m, Move (snd m))) ms) p in
  isDragging (comp p') = isDragging (comp p) /\
  startX (comp p') = startX (comp p) /\ startY (comp p') = startY (comp p).
Proof.
  revert p. induction ms as [|[w e] ms IH]; intro p; cbn [map run fst snd].
  - repeat split.
  - destruct (IH (step w (Move e) p)) as (D & X & Y). cbv zeta in D, X, Y.
    destruct (onDrag_frame w e (comp p)) as (D' & _ & X' & Y').
    cbv zeta. rewrite D, X, Y. cbn [step with_comp comp].
    rewrite D', X', Y'. repeat split.
Qed.

(** After a press at [(cx, cy)] and any number of move events, the body is
    displaced from where it was grabbed by exactly the displacement of the
    pointer, [(cx' - cx, cy' - cy)] for the last move at [(cx', cy')]:
    the grab itself does not move it, and earlier moves leave no trace in
    the position. *)
Theorem drag_follows_pointer
    (e e' : PointerEvent) (w' : Window) (ms : list (Window * PointerEvent))
    (p : Page) (cx cy cx' cy' : Q) :
  clientXY e = Some (cx, cy) -> clientXY e' = Some (cx', cy') ->
  let moves := map (fun m => (fst m, Move (snd m))) ms in
  let p' := run (moves ++ [(w', Move e')]) (startDrag e p) in
  posX (comp (startDrag e p)) = posX (comp p) /\
  posY (comp (startDrag e p)) = posY (comp p) /\
  posX (comp p') == posX (comp p) + (cx' - cx) /\
  posY (comp p') == posY (comp p) + (cy' - cy) /\
  isDragging (comp p') = true.
Proof.
  intros E E'. cbv zeta.
  assert (S0 : isDragging (comp (startDrag e p)) = true /\
               startX (comp (startDrag e p)) = cx - posX (comp p) /\
               startY (comp (startDrag e p)) = cy - posY (comp p) /\
               posX (comp (startDrag e p)) = posX (comp p) /\
               posY (comp (startDrag e p)) = posY (comp p)).
  { unfold startDrag. rewrite E. cbn. repeat split. }
  destruct S0 as (D0 & X0 & Y0 & PX & PY).
  split; [exact PX|]. split; [exact PY|].
  assert (R : forall a b q, run (a ++ b) q = run b (run a q)).
  { induction a as [|[w ev] a IH]; intros b q; cbn [app run]; [reflexivity|apply IH]. }
  rewrite R.
  destruct (moves_keep_grab ms (startDrag e p)) as (D & X & Y). cbv zeta in D, X, Y.
  set (q := run (map (fun m => (fst m, Move (snd m))) ms) (startDrag e p)) in *.
  rewrite D0 in D. rewrite X0 in X. rewrite Y0 in Y.
  cbn [run step with_comp comp]. unfold onDrag. rewrite D, E'. cbn [negb].
  destruct (Num.gtb (now w' - lastTime (comp q)) 0); cbn;
    rewrite ?X, ?Y; repeat apply conj; try exact D; ring.
Qed.

Lemma drag_follows_pointer_witness :
  let p := mounted Scenario.win in
  let p' := run ([(Scenario.dragWin, Move (MouseEvent 458 34))]
                 ++ [(Scenario.dragWin, Move (MouseEvent 470 40))])
                (startDrag (MouseEvent 450 30) p) in
  posX (comp p') == posX (comp p) + (470 - 450) /\
  posY (comp p') == posY (comp p) + (40 - 30).
Proof.
  destruct (drag_follows_pointer (MouseEvent 450 30) (MouseEvent 470 40)
              Scenario.dragWin [(Scenario.dragWin, MouseEvent 458 34)]
              (mounted Scenario.win) 450 30 470 40 eq_refl eq_refl)
    as (_ & _ & X & Y & _).
  split; [exact X | exact Y].
Defined.

(** ** Staying in the viewport *)

Lemma integrate_clamps (w : Window) (s : State) :
  buttonWidth <= innerWidth w -> buttonHeight <= innerHeight w ->
  0 <= posX (fst (integrate w s)) <= innerWidth w - buttonWidth /\
  0 <= posY (fst (integrate w s)) <= innerHeight w - buttonHeight.
Proof.
  intros HW HH. unfold integrate.
  match goal with |- context [checkBoundaries w ?m] =>
    pose proof (checkBoundaries_clamps w m HW HH) as B;
    destruct (checkBoundaries w m) as [b hit] end.
  cbn in *. exact B.
Qed.

(** One step without a press keeps an undragged body inside a viewport of
    fixed size, at least as wide as the button and at least 76 px high. *)
Lemma step_stays_inside (W H : Q) (w : Window) (ev : Event) (p : Page) :
  buttonWidth <= W -> 76 <= H ->
  innerWidth w == W -> innerHeight w == H -> (forall e, ev <> Press e) ->
  isDragging (comp p) = false ->
  0 <= posX (comp p) <= W - buttonWidth ->
  0 <= posY (comp p) <= H - buttonHeight ->
  isDragging (comp (step w ev p)) = false /\
  0 <= posX (comp (step w ev p)) <= W - buttonWidth /\
  0 <= posY (comp (step w ev p)) <= H - buttonHeight.
Proof.
  intros HW HH EW EH NP D PX PY.
  assert (HW' : buttonWidth <= innerWidth w) by lra.
  assert (HH' : buttonHeight <= innerHeight w) by (unfold_params; lra).
  assert (A : forall q, isDragging (comp q) = false ->
            isDragging (comp (animate w q)) = false /\
            0 <= posX (comp (animate w q)) <= W - buttonWidth /\
            0 <= posY (comp (animate w q)) <= H - buttonHeight).
  { intros q Dq. rewrite animate_isDragging. split; [exact Dq|].
    destruct (animate_position w q Dq) as [-> ->].
    pose proof (integrate_clamps w (comp q) HW' HH'). lra. }
  destruct ev as [ | e | e | | | ]; cbn [step].
  - unfold with_comp, handleScroll. cbn [comp].
    destruct (negb (hasDropped (comp p)) && Num.gtb (scrollY w) 50); cbn;
      repeat split; try assumption; try apply PX; try apply PY;
      unfold_params; lra.
  - destruct (NP e). reflexivity.
  - unfold with_comp, onDrag. cbn [comp]. rewrite D. cbn [negb].
    repeat split; try assumption; try apply PX; apply PY.
  - unfold stopDrag. apply A. reflexivity.
  - unfold with_comp. cbn [comp].
    destruct (checkBoundaries_frame w (comp p)) as (F & _).
    pose proof (checkBoundaries_clamps w (comp p) HW' HH').
    rewrite F. split; [exact D|]. lra.
  - destruct (frames p); [repeat split; try assumption; try apply PX; apply PY|].
    apply A. exact D.
Qed.

(** As long as the button is never pressed, it stays inside the viewport:
    from mounting in a viewport at least as wide as the button and at least
    76 px high whose size does not change, after any sequence of scroll,
    move, release, resize and frame events the body is within
    [[0, W - buttonWidth] x [0, H - buttonHeight]] and is not being
    dragged. *)
Theorem untouched_button_stays_inside
    (W H : Q) (w0 : Window) (tr : list (Window * Event)) :
  buttonWidth <= W -> 76 <= H -> innerWidth w0 == W ->
  Forall (fun we => innerWidth (fst we) == W /\ innerHeight (fst we) == H /\
                    forall e, snd we <> Press e) tr ->
  let p := run tr (mounted w0) in
  isDragging (comp p) = false /\
  0 <= posX (comp p) <= W - buttonWidth /\
  0 <= posY (comp p) <= H - buttonHeight.
Proof.
  intros HW HH EW All.
  assert (G : forall q, isDragging (comp q) = false ->
            0 <= posX (comp q) <= W - buttonWidth ->
            0 <= posY (comp q) <= H - buttonHeight ->
            isDragging (comp (run tr q)) = false /\
            0 <= posX (comp (run tr q)) <= W - buttonWidth /\
            0 <= posY (comp (run tr q)) <= H - buttonHeight).
  { induction All as [|[w ev] tr (E1 & E2 & NP) All IH]; intros q D PX PY; cbn [run].
    - auto.
    - cbn [fst snd] in *.
      destruct (step_stays_inside W H w ev q HW HH E1 E2 NP D PX PY) as (D' & PX' & PY').
      apply IH; assumption. }
  apply G.
  - reflexivity.
  - cbn. unfold Qdiv. change (/ 2) with (1 # 2). unfold_params. lra.
  - cbn. unfold_params. lra.
Qed.

Lemma untouched_button_stays_inside_witness :
  let p := run Scenario.noGrab (mounted Scenario.win) in
  isDragging (comp p) = false /\
  0 <= posX (comp p) <= 1000 - buttonWidth /\
  0 <= posY (comp p) <= 800 - buttonHeight.
Proof.
  apply (untouched_button_stays_inside 1000 800 Scenario.win Scenario.noGrab);
    try qcompute.
  repeat constructor; cbn; try reflexivity; discriminate.
Defined.

(** ** The tick run by a release *)


